(** * Test1_main.c: the button-triggered blink loop of the dsPIC33E board

    A shallow embedding of the [while (1)] loop of [main] (lines 128-158 of
    [Test1_main.c]) and the properties of the timed output pattern it
    produces on [LATGbits.LATG11].

    One iteration of the loop is executed per timer-1 wake-up ([Idle()]
    returns once per millisecond), so one application of [step] below is
    one tick. *)

From Stdlib Require Import ZArith Lia Bool PeanoNat.
Open Scope Z_scope.

(** ** Machine integers

    The target is a dsPIC33E compiled with XC16, where [int] is a 16-bit
    two's-complement integer.  [t++] is modelled with the wrap-around
    written out, so that the absence of overflow is a theorem and not an
    assumption of the model. *)

Definition INT_MIN : Z := -32768.
Definition INT_MAX : Z := 32767.

Definition wrap_int (z : Z) : Z := (z - INT_MIN) mod 65536 + INT_MIN.

(** ** Program state

    [button] and [t] are the two locals of [main] declared at lines 116-117;
    [LATG11] is the output latch bit driving the indicator. *)

Record state : Type := mkState {
  button : Z;      (* char button: button press indicator *)
  t      : Z;      (* int t: time in ms spent in cycle *)
  LATG11 : bool    (* LATGbits.LATG11 *)
}.

Definition set_button (v : Z) (s : state) : state :=
  {| button := v; t := t s; LATG11 := LATG11 s |}.

Definition set_t (v : Z) (s : state) : state :=
  {| button := button s; t := v; LATG11 := LATG11 s |}.

Definition set_LATG11 (v : bool) (s : state) : state :=
  {| button := button s; t := t s; LATG11 := v |}.

(** [t++] on an [int]. *)
Definition incr_t (s : state) : state := set_t (wrap_int (t s + 1)) s.

(** Lines 116-123: [button = 0], [t = 0], [LATGbits.LATG11 = 0]. *)
Definition power_on : state := {| button := 0; t := 0; LATG11 := false |}.

(** ** Reading the input pin

    [PORTDbits.RD6] is a volatile special-function register: every
    occurrence of it in an evaluated expression is one read of the pin.
    During one iteration the pin is described by a [port]: [p k] is the
    level returned by the [k]-th read of that iteration ([true] = reads 1).
    A [sampler] computation threads the number of reads done so far. *)

Definition port : Type := nat -> bool.

Module Sampler.

Definition sampler (A : Type) : Type := port -> nat -> A * nat.

Definition ret {A : Type} (a : A) : sampler A := fun _ n => (a, n).

Definition bind {A B : Type} (m : sampler A) (k : A -> sampler B) : sampler B :=
  fun p n => let (a, n') := m p n in k a p n'.

(** One read of [PORTDbits.RD6]. *)
Definition read_RD6 : sampler bool := fun p n => (p n, S n).

(** C's short-circuit [&&]: the right operand is evaluated only when the
    left one is true. *)
Definition and_then (a b : sampler bool) : sampler bool :=
  bind a (fun x => if x then b else ret false).

End Sampler.

Import Sampler.

Notation "x <- m ;; k" := (bind m (fun x => k))
  (at level 61, m at next level, right associativity).
Notation "a &&& b" := (and_then a b) (at level 40, left associativity).

(** Lines 129-133:
<<
      if ((button == 0) && (PORTDbits.RD6 == 1)) {
      } else if ((button == 0) && (PORTDbits.RD6 == 0)) {
          button = 1;}
>> *)
Definition sample_button (s : state) : sampler state :=
  c1 <- ret (button s =? 0) &&& (r <- read_RD6 ;; ret (Bool.eqb r true)) ;;
  if c1 then ret s
  else
    c2 <- ret (button s =? 0) &&& (r <- read_RD6 ;; ret (Bool.eqb r false)) ;;
    if c2 then ret (set_button 1 s) else ret s.

(** The three guards of the [if]/[else if] chain of lines 135-141. *)
Definition at_start (s : state) : bool := t s =? 0.
Definition in_on_hold (s : state) : bool := (0 <? t s) && (t s <? 1000).
Definition in_off_hold (s : state) : bool := (t s >=? 1000) && (t s <? 3000).

(** Lines 135-149, the body of [if (button == 1)]. *)
Definition cycle (s : state) : state :=
  if at_start s then incr_t (set_LATG11 true s)
  else if in_on_hold s then incr_t s
  else if in_off_hold s then incr_t (set_LATG11 false s)
  else set_LATG11 false (set_t 0 s).

(** Lines 134-150. *)
Definition blink (s : state) : state :=
  if button s =? 1 then cycle s else s.

(** The final [else] of the chain (lines 145-149) is entered. *)
Definition enters_reset (s : state) : bool :=
  (button s =? 1) && negb (at_start s) && negb (in_on_hold s) && negb (in_off_hold s).

(** One iteration of the [while (1)] loop, up to [Idle()]: the state at the
    idle wait and the number of reads of the input pin. *)
Definition loop_body (p : port) (s : state) : state * nat :=
  let (s1, n) := sample_button s p 0%nat in (blink s1, n).

Definition step (p : port) (s : state) : state := fst (loop_body p s).
Definition samples (p : port) (s : state) : nat := snd (loop_body p s).

(** The state of the variables when the armed block is evaluated in the
    iteration, after lines 129-133. *)
Definition latched (p : port) (s : state) : state := fst (sample_button s p 0%nat).

(** Ticks are numbered from 1; tick [k] sees the pin as [inp k].
    [run_ticks inp n s] is the state at the idle wait after tick [n]. *)
Fixpoint run_ticks (inp : nat -> port) (n : nat) (s : state) : state :=
  match n with
  | O => s
  | S m => step (inp n) (run_ticks inp m s)
  end.

(** States at the idle wait reachable from power-on. *)
Inductive reachable : state -> Prop :=
| reach_power_on : reachable power_on
| reach_step : forall p s, reachable s -> reachable (step p s).

(** Pin levels: steady high (button released) and steady low (pressed). *)
Definition high : port := fun _ => true.
Definition low : port := fun _ => false.

(** A pin that does not change during the iteration. *)
Definition steady (p : port) : Prop := forall k, p k = p 0%nat.

(** The level of the output at the idle wait, as a function of the two
    variables: lit exactly while the armed counter is in 1..1000. *)
Definition OutputLine_of (b : Z) (m : Z) : bool :=
  (b =? 1) && (1 <=? m) && (m <=? 1000).

(** The armed state whose counter is [m]. *)
Definition armed_at (m : Z) : state :=
  {| button := 1; t := m; LATG11 := OutputLine_of 1 m |}.

(** The invariant of the loop at the idle wait. *)
Definition loop_inv (s : state) : Prop :=
  (button s = 0 /\ t s = 0 /\ LATG11 s = false) \/
  (button s = 1 /\ 0 <= t s <= 3000 /\ LATG11 s = OutputLine_of 1 (t s)).

(** The stream of the scenario: released during ticks 1-50, pressed from
    tick 51 on. *)
Definition press_at_51 : nat -> port :=
  fun k => if (k <=? 50)%nat then high else low.

(** * Basic facts *)

Ltac zcases :=
  rewrite ?Z.geb_leb in *;
  repeat match goal with
  | |- context [?a =? ?b] => destruct (Z.eqb_spec a b)
  | |- context [?a <? ?b] => destruct (Z.ltb_spec a b)
  | |- context [?a <=? ?b] => destruct (Z.leb_spec a b)
  | H : context [?a =? ?b] |- _ => destruct (Z.eqb_spec a b)
  | H : context [?a <? ?b] |- _ => destruct (Z.ltb_spec a b)
  | H : context [?a <=? ?b] |- _ => destruct (Z.leb_spec a b)
  end.

Lemma wrap_int_small (z : Z) : INT_MIN <= z <= INT_MAX -> wrap_int z = z.
Proof.
  unfold wrap_int, INT_MIN, INT_MAX. intros H.
  rewrite Z.mod_small by lia. lia.
Qed.

Section Sampling.
Variables (p : port) (s : state).

Lemma sample_armed : button s <> 0 -> sample_button s p 0%nat = (s, 0%nat).
Proof.
  intros H. unfold sample_button, and_then, bind, ret.
  destruct (Z.eqb_spec (button s) 0); [contradiction | reflexivity].
Qed.

Lemma sample_high :
  button s = 0 -> p 0%nat = true -> sample_button s p 0%nat = (s, 1%nat).
Proof.
  intros Hb Hp. unfold sample_button, and_then, bind, ret, read_RD6.
  rewrite Hb. simpl. rewrite Hp. reflexivity.
Qed.

Lemma sample_glitch :
  button s = 0 -> p 0%nat = false -> p 1%nat = true ->
  sample_button s p 0%nat = (s, 2%nat).
Proof.
  intros Hb Hp Hq. unfold sample_button, and_then, bind, ret, read_RD6.
  rewrite Hb. simpl. rewrite Hp. simpl. rewrite Hq. reflexivity.
Qed.

Lemma sample_low :
  button s = 0 -> p 0%nat = false -> p 1%nat = false ->
  sample_button s p 0%nat = (set_button 1 s, 2%nat).
Proof.
  intros Hb Hp Hq. unfold sample_button, and_then, bind, ret, read_RD6.
  rewrite Hb. simpl. rewrite Hp. simpl. rewrite Hq. reflexivity.
Qed.

(** The four ways through lines 129-133. *)
Lemma sample_cases :
  (button s <> 0 /\ sample_button s p 0%nat = (s, 0%nat)) \/
  (button s = 0 /\ p 0%nat = true /\ sample_button s p 0%nat = (s, 1%nat)) \/
  (button s = 0 /\ p 0%nat = false /\ p 1%nat = true /\
     sample_button s p 0%nat = (s, 2%nat)) \/
  (button s = 0 /\ p 0%nat = false /\ p 1%nat = false /\
     sample_button s p 0%nat = (set_button 1 s, 2%nat)).
Proof.
  destruct (Z.eq_dec (button s) 0) as [Hb | Hb].
  - destruct (p 0%nat) eqn:Hp.
    + right; left. auto using sample_high.
    + destruct (p 1%nat) eqn:Hq.
      * right; right; left. auto using sample_glitch.
      * right; right; right. auto using sample_low.
  - left. auto using sample_armed.
Qed.

Lemma step_armed : button s = 1 -> step p s = cycle s.
Proof.
  intros Hb. unfold step, loop_body. rewrite sample_armed by lia.
  unfold blink. rewrite Hb. reflexivity.
Qed.

Lemma samples_armed : button s = 1 -> samples p s = 0%nat.
Proof.
  intros Hb. unfold samples, loop_body. rewrite sample_armed by lia. reflexivity.
Qed.

Lemma step_high : button s = 0 -> p 0%nat = true -> step p s = s.
Proof.
  intros Hb Hp. unfold step, loop_body. rewrite sample_high by assumption.
  unfold blink. rewrite Hb. reflexivity.
Qed.

Lemma step_glitch :
  button s = 0 -> p 0%nat = false -> p 1%nat = true -> step p s = s.
Proof.
  intros Hb Hp Hq. unfold step, loop_body. rewrite sample_glitch by assumption.
  unfold blink. rewrite Hb. reflexivity.
Qed.

Lemma step_low :
  button s = 0 -> p 0%nat = false -> p 1%nat = false ->
  step p s = cycle (set_button 1 s).
Proof.
  intros Hb Hp Hq. unfold step, loop_body. rewrite sample_low by assumption.
  reflexivity.
Qed.

End Sampling.

Lemma cycle_button (s : state) : button (cycle s) = button s.
Proof.
  unfold cycle.
  destruct (at_start s); [reflexivity|].
  destruct (in_on_hold s); [reflexivity|].
  destruct (in_off_hold s); reflexivity.
Qed.

(** From the start of a cycle the first armed tick lights the output,
    whatever the latch bit was. *)
Lemma cycle_start (s : state) :
  button s = 1 -> t s = 0 -> cycle s = armed_at 1.
Proof.
  intros Hb Ht. unfold cycle, at_start. rewrite Ht. simpl.
  unfold incr_t, set_t, set_LATG11, armed_at. simpl. rewrite Hb, Ht.
  reflexivity.
Qed.

Lemma succ_mod_3001 (m : Z) :
  0 <= m <= 3000 -> (m + 1) mod 3001 = if m =? 3000 then 0 else m + 1.
Proof.
  intros Hm. destruct (Z.eqb_spec m 3000) as [-> | Hne].
  - reflexivity.
  - apply Z.mod_small. lia.
Qed.

Lemma cycle_armed_at (m : Z) :
  0 <= m <= 3000 -> cycle (armed_at m) = armed_at ((m + 1) mod 3001).
Proof.
  intros Hm. rewrite succ_mod_3001 by assumption.
  unfold cycle, at_start, in_on_hold, in_off_hold, incr_t, set_t, set_LATG11,
    armed_at, OutputLine_of; simpl.
  assert (Hw : wrap_int (m + 1) = m + 1)
    by (apply wrap_int_small; unfold INT_MIN, INT_MAX; lia).
  rewrite Hw.
  zcases; simpl; try lia; try reflexivity.
Qed.

Lemma armed_at_button (m : Z) : button (armed_at m) = 1.
Proof. reflexivity. Qed.

Lemma armed_at_t (m : Z) : t (armed_at m) = m.
Proof. reflexivity. Qed.

(** An armed state satisfying the invariant is determined by its counter. *)
Lemma armed_canonical (s : state) :
  loop_inv s -> button s = 1 -> s = armed_at (t s).
Proof.
  intros [[Hb _] | [Hb [_ Hl]]] Hb1; [lia|].
  destruct s as [b m l]; simpl in *. subst. reflexivity.
Qed.

Lemma loop_inv_armed_at (m : Z) : 0 <= m <= 3000 -> loop_inv (armed_at m).
Proof. intros Hm. right. simpl. auto. Qed.

Lemma mod_3001_range (z : Z) : 0 <= z mod 3001 <= 3000.
Proof. pose proof (Z.mod_pos_bound z 3001). lia. Qed.

(** The invariant is preserved by every iteration, whatever the pin does. *)
Lemma step_inv (p : port) (s : state) : loop_inv s -> loop_inv (step p s).
Proof.
  intros Hinv.
  destruct (sample_cases p s) as [[Hb _] | [[Hb [Hp _]] | [[Hb [Hp [Hq _]]] | [Hb [Hp [Hq _]]]]]].
  - destruct Hinv as [[Hb0 _] | [Hb1 [Hr Hl]]]; [contradiction|].
    rewrite step_armed by assumption.
    rewrite (armed_canonical s) by (try right; auto).
    rewrite cycle_armed_at by assumption.
    apply loop_inv_armed_at, mod_3001_range.
  - rewrite step_high; assumption.
  - rewrite step_glitch; assumption.
  - rewrite step_low by assumption.
    destruct Hinv as [[_ [Ht _]] | [Hb1 _]]; [|lia].
    rewrite cycle_start by (simpl; auto).
    apply loop_inv_armed_at. lia.
Qed.

Lemma reachable_inv (s : state) : reachable s -> loop_inv s.
Proof.
  induction 1 as [| p s _ IH].
  - left. repeat split.
  - apply step_inv, IH.
Qed.

Lemma reachable_run_ticks (inp : nat -> port) (n : nat) (s : state) :
  reachable s -> reachable (run_ticks inp n s).
Proof.
  intros Hs. induction n as [| n IH]; simpl.
  - exact Hs.
  - apply reach_step, IH.
Qed.

(** * Running the armed cycle *)

Lemma run_armed_at (inp : nat -> port) (n : nat) (m : Z) :
  0 <= m <= 3000 ->
  run_ticks inp n (armed_at m) = armed_at ((m + Z.of_nat n) mod 3001).
Proof.
  intros Hm. induction n as [| n IH].
  - simpl. rewrite Z.add_0_r, Z.mod_small by lia. reflexivity.
  - cbn [run_ticks]. rewrite IH.
    rewrite step_armed by apply armed_at_button.
    rewrite cycle_armed_at by apply mod_3001_range.
    rewrite Z.add_mod_idemp_l by lia.
    f_equal. f_equal. lia.
Qed.

(** Once armed the pin is not read: the iteration is the same under any
    two ports. *)
Lemma step_armed_any_port (p q : port) (s : state) :
  button s = 1 -> step p s = step q s.
Proof. intros Hb. rewrite !step_armed by assumption. reflexivity. Qed.

Lemma step_button_armed (p : port) (s : state) :
  button s = 1 -> button (step p s) = 1.
Proof.
  intros Hb. rewrite step_armed by assumption. rewrite cycle_button. exact Hb.
Qed.

Lemma run_ticks_button_armed (inp : nat -> port) (n : nat) (s : state) :
  button s = 1 -> button (run_ticks inp n s) = 1.
Proof.
  intros Hb. induction n as [| n IH]; simpl; auto using step_button_armed.
Qed.

(** An iteration changes [button] only from 0 to 1. *)
Lemma step_button_cases (p : port) (s : state) :
  button (step p s) = button s \/ (button s = 0 /\ button (step p s) = 1).
Proof.
  destruct (sample_cases p s) as [[Hb H] | [[Hb [Hp _]] | [[Hb [Hp [Hq _]]] | [Hb [Hp [Hq _]]]]]].
  - left. unfold step, loop_body. rewrite H. simpl. unfold blink.
    destruct (button s =? 1); [apply cycle_button | reflexivity].
  - left. rewrite step_high; auto.
  - left. rewrite step_glitch; auto.
  - right. split; [assumption|]. rewrite step_low by assumption.
    rewrite cycle_button. reflexivity.
Qed.

(** An iteration that leaves the latch clear changed nothing. *)
Lemma step_unlatched (p : port) (s : state) :
  button (step p s) = 0 -> step p s = s.
Proof.
  intros H0.
  destruct (sample_cases p s) as [[Hb H] | [[Hb [Hp _]] | [[Hb [Hp [Hq _]]] | [Hb [Hp [Hq _]]]]]].
  - destruct (step_button_cases p s) as [He | [Hz _]]; [|contradiction].
    rewrite H0 in He. symmetry in He. contradiction.
  - apply step_high; assumption.
  - apply step_glitch; assumption.
  - rewrite step_low, cycle_button in H0 by assumption. discriminate H0.
Qed.

(** * The iteration seen through the state at the armed block *)

Lemma step_latched (p : port) (s : state) : step p s = blink (latched p s).
Proof.
  unfold step, loop_body, latched.
  destruct (sample_button s p 0%nat) as [s1 n]. reflexivity.
Qed.

Lemma latched_cases (p : port) (s : state) :
  latched p s = s \/ (button s = 0 /\ latched p s = set_button 1 s).
Proof.
  unfold latched.
  destruct (sample_cases p s) as [[_ H] | [[_ [_ H]] | [[_ [_ [_ H]]] | [Hb [_ [_ H]]]]]];
    rewrite H; simpl; auto.
Qed.

Lemma latched_t (p : port) (s : state) : t (latched p s) = t s.
Proof. destruct (latched_cases p s) as [H | [_ H]]; rewrite H; reflexivity. Qed.

Lemma latched_LATG11 (p : port) (s : state) : LATG11 (latched p s) = LATG11 s.
Proof. destruct (latched_cases p s) as [H | [_ H]]; rewrite H; reflexivity. Qed.

(** At the armed block of a reachable iteration the state is the canonical
    armed state of the counter, except that on the arming iteration itself
    the output has not been lit yet. *)
Lemma step_of_armed_tick (p : port) (s : state) :
  reachable s -> button (latched p s) = 1 ->
  0 <= t s <= 3000 /\
  LATG11 s = OutputLine_of 1 (t s) /\
  step p s = armed_at ((t s + 1) mod 3001).
Proof.
  intros Hr Hl. pose proof (reachable_inv s Hr) as Hinv.
  rewrite step_latched.
  destruct (latched_cases p s) as [H | [Hb H]]; rewrite H in *.
  - destruct Hinv as [[Hb0 _] | [Hb1 [Hrange Hout]]]; [lia|].
    repeat split; try lia; try assumption.
    unfold blink. rewrite Hl.
    change (1 =? 1) with true. cbv iota.
    rewrite (armed_canonical s) at 1 by (try right; auto).
    apply cycle_armed_at, Hrange.
  - destruct Hinv as [[_ [Ht Hout]] | [Hb1 _]]; [|lia].
    rewrite Ht, Hout. repeat split; try lia.
    unfold blink. simpl button. change (1 =? 1) with true. cbv iota.
    apply cycle_start; simpl; auto.
Qed.

(** * Splitting and comparing runs *)

Lemma run_ticks_shift (inp : nat -> port) (n k : nat) (s : state) :
  run_ticks inp (n + k) s =
  run_ticks (fun j => inp (n + j)%nat) k (run_ticks inp n s).
Proof.
  induction k as [| k IH].
  - rewrite Nat.add_0_r. reflexivity.
  - rewrite Nat.add_succ_r. cbn [run_ticks]. rewrite IH.
    rewrite Nat.add_succ_r. reflexivity.
Qed.

(** After a tick that starts the cycle, the state is given by the position
    in a cycle of 3001 ticks. *)
Lemma run_after_first (inp : nat -> port) (n : nat) (s : state) :
  step (inp 1%nat) s = armed_at 1 ->
  run_ticks inp (S n) s = armed_at ((1 + Z.of_nat n) mod 3001).
Proof.
  intros H1. induction n as [| n IH].
  - cbn [run_ticks]. rewrite H1. reflexivity.
  - change (run_ticks inp (S (S n)) s)
      with (step (inp (S (S n))) (run_ticks inp (S n) s)).
    rewrite IH.
    rewrite step_armed by apply armed_at_button.
    rewrite cycle_armed_at by apply mod_3001_range.
    rewrite Z.add_mod_idemp_l by lia.
    f_equal. f_equal. lia.
Qed.

(** The iteration looks at the first two reads of the pin at most. *)
Lemma step_ext (p q : port) (s : state) :
  p 0%nat = q 0%nat -> p 1%nat = q 1%nat -> step p s = step q s.
Proof.
  intros H0 H1. unfold step, loop_body.
  assert (He : sample_button s p 0%nat = sample_button s q 0%nat).
  { unfold sample_button, and_then, bind, ret, read_RD6.
    destruct (button s =? 0); simpl; [|reflexivity].
    rewrite H0. destruct (q 0%nat); simpl; [reflexivity|].
    rewrite H1. destruct (q 1%nat); reflexivity. }
  rewrite He. reflexivity.
Qed.

Lemma run_ticks_unlatched_prefix (inp : nat -> port) (n : nat) (s : state) :
  button (run_ticks inp n s) = 0 ->
  forall k, (k <= n)%nat -> run_ticks inp k s = s.
Proof.
  induction n as [| n IH]; intros H0 k Hk.
  - replace k with 0%nat by lia. reflexivity.
  - cbn [run_ticks] in H0. pose proof (step_unlatched _ _ H0) as He.
    rewrite He in H0.
    destruct (Nat.eq_dec k (S n)) as [-> | Hne].
    + cbn [run_ticks]. rewrite He. apply (IH H0). lia.
    + apply (IH H0). lia.
Qed.

Lemma run_ticks_armed_later (inp : nat -> port) (n k : nat) (s : state) :
  button (run_ticks inp n s) = 1 -> (n <= k)%nat ->
  button (run_ticks inp k s) = 1.
Proof.
  intros Hb Hk. replace k with (n + (k - n))%nat by lia.
  rewrite run_ticks_shift. apply run_ticks_button_armed, Hb.
Qed.

(** In a reachable state the latch variable is 0 or 1. *)
Lemma reachable_button (s : state) : reachable s -> button s = 0 \/ button s = 1.
Proof.
  intros Hr. destruct (reachable_inv s Hr) as [[Hb _] | [Hb _]]; auto.
Qed.

(** The output after a tick as the transition table of the specification
    gives it, from the latch and the counter with which the tick is
    evaluated: lit from the start of the cycle and while the counter is
    below 1000, dark in the other armed rows, and never lit while waiting
    for the trigger. *)
Definition table_output (latch : Z) (m : Z) : bool :=
  if latch =? 1 then
    if m =? 0 then true
    else if (0 <? m) && (m <? 1000) then true
    else false
  else false.

(** * Invariants of the counter and of the output *)

(** C10. At every idle wait [0 <= t <= 3000]; the final [else] branch is
    entered only with [t = 3000]; and incrementing [t] in a reachable
    state stays within the 16-bit [int], so [t++] never wraps. *)
Theorem counter_bounded_no_overflow (s : state) :
  reachable s ->
  0 <= t s <= 3000 /\
  (forall p, enters_reset (latched p s) = true -> t s = 3000) /\
  INT_MIN <= t s + 1 <= INT_MAX /\
  wrap_int (t s + 1) = t s + 1.
Proof.
  intros Hr.
  assert (Hrange : 0 <= t s <= 3000).
  { destruct (reachable_inv s Hr) as [[_ [Ht _]] | [_ [Ht _]]]; lia. }
  assert (Hint : INT_MIN <= t s + 1 <= INT_MAX) by (unfold INT_MIN, INT_MAX; lia).
  repeat split; try lia; try (apply wrap_int_small; assumption).
  intros p He. unfold enters_reset, at_start, in_on_hold, in_off_hold in He.
  rewrite latched_t in He.
  destruct (button (latched p s) =? 1); [|discriminate].
  simpl in He. zcases; simpl in He; try discriminate; lia.
Qed.

(** The reset branch is really taken, at the end of the off phase. *)
Lemma reset_entered_at_3000 (p : port) :
  enters_reset (latched p (armed_at 3000)) = true.
Proof. reflexivity. Qed.

Lemma counter_bounded_no_overflow_witness :
  0 <= t (step low power_on) <= 3000 /\
  (forall p, enters_reset (latched p (step low power_on)) = true ->
             t (step low power_on) = 3000) /\
  INT_MIN <= t (step low power_on) + 1 <= INT_MAX /\
  wrap_int (t (step low power_on) + 1) = t (step low power_on) + 1.
Proof.
  apply (counter_bounded_no_overflow (step low power_on)).
  apply reach_step, reach_power_on.
Defined.

(** C3. In every reachable state the output is [OutputLine_of] of the latch
    and the counter; the output a tick produces is the one the transition
    table gives for the latch and counter it is evaluated with; and two
    reachable states with the same latch and counter have the same
    output. *)
Theorem output_function_of_latch_and_counter (s : state) :
  reachable s ->
  LATG11 s = OutputLine_of (button s) (t s) /\
  (forall p, LATG11 (step p s) = table_output (button (latched p s)) (t s)) /\
  (forall s', reachable s' -> button s' = button s -> t s' = t s ->
              LATG11 s' = LATG11 s).
Proof.
  intros Hr.
  assert (Hout : forall x, reachable x -> LATG11 x = OutputLine_of (button x) (t x)).
  { intros x Hx.
    destruct (reachable_inv x Hx) as [[Hb [Ht Hl]] | [Hb [Ht Hl]]];
      rewrite Hl, Hb; [rewrite Ht|]; reflexivity. }
  split; [apply Hout, Hr|]. split.
  - intros p. destruct (Z.eq_dec (button (latched p s)) 1) as [Hb | Hb].
    + destruct (step_of_armed_tick p s Hr Hb) as [Hrange [_ Hs]].
      rewrite Hs, Hb. simpl LATG11. rewrite succ_mod_3001 by assumption.
      unfold OutputLine_of, table_output. zcases; simpl; try lia; reflexivity.
    + rewrite step_latched. unfold blink, table_output.
      destruct (Z.eqb_spec (button (latched p s)) 1); [contradiction|].
      rewrite latched_LATG11.
      destruct (latched_cases p s) as [H | [_ H]];
        [|rewrite H in Hb; simpl in Hb; lia].
      rewrite H in Hb.
      destruct (reachable_inv s Hr) as [[_ [_ Hl]] | [Hb1 _]];
        [exact Hl | contradiction].
  - intros s' Hr' Hb Ht. rewrite (Hout s' Hr'), (Hout s Hr), Hb, Ht. reflexivity.
Qed.

Lemma output_function_witness :
  LATG11 (step low power_on) =
    OutputLine_of (button (step low power_on)) (t (step low power_on)) /\
  (forall p, LATG11 (step p (step low power_on)) =
             table_output (button (latched p (step low power_on)))
                          (t (step low power_on))) /\
  (forall s', reachable s' ->
              button s' = button (step low power_on) ->
              t s' = t (step low power_on) ->
              LATG11 s' = LATG11 (step low power_on)).
Proof.
  apply (output_function_of_latch_and_counter (step low power_on)).
  apply reach_step, reach_power_on.
Defined.

(** The state reached by pressing the button on the first tick and letting
    3000 ticks pass. *)
Definition end_of_off_phase : state := run_ticks (fun _ => low) 3000 power_on.

(** C8, as stated, fails: the counter reaches 3000, outside [0, 3000), at
    the idle wait that precedes the reset tick. *)
Lemma counter_reaches_3000 :
  reachable end_of_off_phase /\ ~ (0 <= t end_of_off_phase < 3000).
Proof.
  split.
  - apply reachable_run_ticks, reach_power_on.
  - assert (H : t end_of_off_phase = 3000) by (vm_compute; reflexivity).
    rewrite H. lia.
Qed.

(** C8, amended. In every reachable state [0 <= t <= 3000]; on a tick
    evaluated with the latch set the counter is incremented by exactly one
    when it is below 3000 and is set back to 0 when it is 3000. *)
Theorem counter_range_and_increment (p : port) (s : state) :
  reachable s ->
  0 <= t s <= 3000 /\
  (button (latched p s) = 1 ->
     (t s < 3000 -> t (step p s) = t s + 1) /\
     (t s = 3000 -> t (step p s) = 0)).
Proof.
  intros Hr. split.
  - destruct (reachable_inv s Hr) as [[_ [Ht _]] | [_ [Ht _]]]; lia.
  - intros Hb. destruct (step_of_armed_tick p s Hr Hb) as [Hrange [_ Hs]].
    rewrite Hs, armed_at_t, succ_mod_3001 by assumption.
    split; intros Ht; zcases; lia.
Qed.

Lemma counter_range_and_increment_witness :
  0 <= t end_of_off_phase <= 3000 /\
  (button (latched high end_of_off_phase) = 1 ->
     (t end_of_off_phase < 3000 ->
        t (step high end_of_off_phase) = t end_of_off_phase + 1) /\
     (t end_of_off_phase = 3000 -> t (step high end_of_off_phase) = 0)).
Proof.
  apply (counter_range_and_increment high end_of_off_phase).
  apply reachable_run_ticks, reach_power_on.
Defined.

(** C4. On an armed tick of a reachable execution the output goes from ON
    to OFF exactly when the tick is evaluated with [t = 1000], and the
    counter is set back to 0, through the final [else] branch, exactly when
    the tick is evaluated with [t = 3000]. *)
Theorem transitions_on_exact_ticks (p : port) (s : state) :
  reachable s -> button (latched p s) = 1 ->
  ((LATG11 s = true /\ LATG11 (step p s) = false) <-> t s = 1000) /\
  (t (step p s) = 0 <-> t s = 3000) /\
  (enters_reset (latched p s) = true <-> t s = 3000).
Proof.
  intros Hr Hb.
  destruct (step_of_armed_tick p s Hr Hb) as [Hrange [Hout Hs]].
  rewrite Hs, Hout. simpl LATG11. rewrite armed_at_t.
  rewrite succ_mod_3001 by assumption.
  unfold enters_reset, at_start, in_on_hold, in_off_hold.
  rewrite latched_t, Hb. unfold OutputLine_of.
  repeat split; zcases; simpl; intros; try lia; try discriminate;
    try reflexivity; try tauto.
Qed.

Lemma transitions_on_exact_ticks_witness :
  ((LATG11 (armed_at 1000) = true /\
    LATG11 (step high (armed_at 1000)) = false) <-> t (armed_at 1000) = 1000) /\
  (t (step high (armed_at 1000)) = 0 <-> t (armed_at 1000) = 3000) /\
  (enters_reset (latched high (armed_at 1000)) = true <-> t (armed_at 1000) = 3000).
Proof.
  apply (transitions_on_exact_ticks high (armed_at 1000)).
  - change (armed_at 1000) with (run_ticks (fun _ => low) 1000 power_on).
    apply reachable_run_ticks, reach_power_on.
  - reflexivity.
Defined.

(** C7. Over any number of ticks that leave the latch clear, in a
    reachable execution, the counter stays 0 and the output is the one the
    ticks started with; in fact the whole state is unchanged. *)
Theorem unarmed_ticks_change_nothing (inp : nat -> port) (n : nat) (s : state) :
  reachable s -> button (run_ticks inp n s) = 0 ->
  forall k, (k <= n)%nat ->
    button (run_ticks inp k s) = 0 /\
    t (run_ticks inp k s) = 0 /\
    LATG11 (run_ticks inp k s) = LATG11 s /\
    run_ticks inp k s = s.
Proof.
  intros Hr H0 k Hk.
  pose proof (run_ticks_unlatched_prefix inp n s H0) as Hpre.
  assert (Hb : button s = 0) by (rewrite <- (Hpre n (Nat.le_refl n)); exact H0).
  rewrite (Hpre k Hk).
  destruct (reachable_inv s Hr) as [[_ [Ht _]] | [Hb1 _]]; [|lia].
  auto.
Qed.

Lemma unarmed_ticks_change_nothing_witness :
  button (run_ticks press_at_51 50 power_on) = 0 /\
  t (run_ticks press_at_51 50 power_on) = 0 /\
  LATG11 (run_ticks press_at_51 50 power_on) = LATG11 power_on /\
  run_ticks press_at_51 50 power_on = power_on.
Proof.
  apply (unarmed_ticks_change_nothing press_at_51 50 power_on).
  - apply reach_power_on.
  - vm_compute. reflexivity.
  - apply Nat.le_refl.
Defined.

(** * Sampling the input and arming the latch *)

(** C9, as stated, fails: on an unarmed tick whose first read of the pin
    is low the pin is read a second time, by the [else if] of line 131. *)
Lemma pressed_pin_is_read_twice :
  button power_on = 0 /\ samples low power_on = 2%nat /\
  samples low power_on <> 1%nat.
Proof. repeat split. vm_compute. discriminate. Qed.

(** C9, amended. On a tick entered with the latch clear the pin is read
    once when that read is high, and the state is unchanged; it is read
    twice when the first read is low, and the latch is set exactly when
    both reads are low, the state being unchanged otherwise.  A pin that is
    steady during the tick therefore arms the latch when low and changes
    nothing when high. *)
Theorem unarmed_tick_sampling (p : port) (s : state) :
  button s = 0 ->
  (p 0%nat = true -> samples p s = 1%nat /\ step p s = s) /\
  (p 0%nat = false -> samples p s = 2%nat) /\
  (p 0%nat = false -> p 1%nat = false ->
     latched p s = set_button 1 s /\ button (step p s) = 1) /\
  (p 0%nat = false -> p 1%nat = true -> step p s = s) /\
  (steady p ->
     (p 0%nat = false -> button (step p s) = 1) /\
     (p 0%nat = true -> step p s = s)).
Proof.
  intros Hb.
  assert (Hlow : p 0%nat = false -> p 1%nat = false ->
                 latched p s = set_button 1 s /\ button (step p s) = 1).
  { intros Hp Hq. unfold latched. rewrite step_low, sample_low by assumption.
    rewrite cycle_button. split; reflexivity. }
  split; [|split; [|split; [exact Hlow | split]]].
  - intros Hp. split; [|apply step_high; assumption].
    unfold samples, loop_body. rewrite sample_high by assumption. reflexivity.
  - intros Hp. unfold samples, loop_body.
    destruct (p 1%nat) eqn:Hq;
      [rewrite sample_glitch | rewrite sample_low]; auto.
  - intros Hp Hq. apply step_glitch; assumption.
  - intros Hst. split; intros Hp.
    + apply Hlow; [assumption|]. rewrite (Hst 1%nat). assumption.
    + apply step_high; assumption.
Qed.

Lemma unarmed_tick_sampling_witness :
  (low 0%nat = true -> samples low power_on = 1%nat /\ step low power_on = power_on) /\
  (low 0%nat = false -> samples low power_on = 2%nat) /\
  (low 0%nat = false -> low 1%nat = false ->
     latched low power_on = set_button 1 power_on /\
     button (step low power_on) = 1) /\
  (low 0%nat = false -> low 1%nat = true -> step low power_on = power_on) /\
  (steady low ->
     (low 0%nat = false -> button (step low power_on) = 1) /\
     (low 0%nat = true -> step low power_on = power_on)).
Proof.
  apply (unarmed_tick_sampling low power_on). reflexivity.
Defined.

(** The reads of the pin made by an unarmed iteration return low: the
    button is seen pressed. *)
Definition reads_pressed (p : port) : bool := negb (p 0%nat) && negb (p 1%nat).

Lemma step_not_pressed (p : port) (s : state) :
  button s = 0 -> reads_pressed p = false -> step p s = s.
Proof.
  unfold reads_pressed. intros Hb Hp.
  destruct (p 0%nat) eqn:H0; [apply step_high; assumption|].
  destruct (p 1%nat) eqn:H1; [apply step_glitch; assumption | discriminate].
Qed.

Lemma step_pressed (p : port) (s : state) :
  button s = 0 -> reads_pressed p = true -> button (step p s) = 1.
Proof.
  unfold reads_pressed. intros Hb Hp.
  destruct (p 0%nat) eqn:H0; [discriminate|].
  destruct (p 1%nat) eqn:H1; [discriminate|].
  rewrite step_low by assumption. apply cycle_button.
Qed.

Lemma run_ticks_released (inp : nat -> port) (n : nat) (s : state) :
  button s = 0 ->
  (forall j, (1 <= j <= n)%nat -> reads_pressed (inp j) = false) ->
  run_ticks inp n s = s.
Proof.
  intros Hb. induction n as [| n IH]; intros Hrel.
  - reflexivity.
  - cbn [run_ticks]. rewrite IH by (intros j Hj; apply Hrel; lia).
    apply step_not_pressed; [assumption | apply Hrel; lia].
Qed.

Lemma steady_reads_pressed (p : port) :
  steady p -> reads_pressed p = negb (p 0%nat).
Proof.
  intros Hst. unfold reads_pressed. rewrite (Hst 1%nat).
  destruct (p 0%nat); reflexivity.
Qed.

(** A pin that bounces during the iteration: low at the first read, high
    at every later one. *)
Definition glitch : port := fun k => negb (k =? 0)%nat.

(** C5, as stated, fails: on a tick whose sample of the pin reads pressed
    (the first read is low) the latch is not set when the second read, made
    by the [else if] of line 131, is high; the state is unchanged. *)
Lemma pressed_sample_does_not_latch :
  button power_on = 0 /\
  glitch 0%nat = false /\
  samples glitch power_on = 2%nat /\
  button (step glitch power_on) = 0 /\
  button (run_ticks (fun k => if (k =? 1)%nat then glitch else high) 100 power_on) = 0.
Proof. vm_compute. repeat split; reflexivity. Qed.

(** C5, amended. In every execution from power-on the latch is 0 or 1 and,
    once 1, stays 1 for ever; no iteration clears it, from any state.  It
    is set on the first tick on which both reads of the pin made by the
    iteration return low: 0 after every earlier tick, 1 after that tick and
    all later ones; and it stays 0 as long as there is no such tick.  When
    the pin is steady within each tick, that tick is the first one whose
    sample is low. *)
Theorem latch_set_once_never_reset (inp : nat -> port) :
  (forall n, button (run_ticks inp n power_on) = 0 \/
             button (run_ticks inp n power_on) = 1) /\
  (forall n k, button (run_ticks inp n power_on) = 1 -> (n <= k)%nat ->
               button (run_ticks inp k power_on) = 1) /\
  (forall p s, button s = 1 -> button (step p s) = 1) /\
  (forall k, (1 <= k)%nat ->
     (forall j, (1 <= j < k)%nat -> reads_pressed (inp j) = false) ->
     reads_pressed (inp k) = true ->
     (forall n, (n < k)%nat -> button (run_ticks inp n power_on) = 0) /\
     (forall n, (k <= n)%nat -> button (run_ticks inp n power_on) = 1)) /\
  ((forall j, (1 <= j)%nat -> reads_pressed (inp j) = false) ->
   forall n, button (run_ticks inp n power_on) = 0) /\
  ((forall j, steady (inp j)) ->
   forall k, (1 <= k)%nat ->
     (forall j, (1 <= j < k)%nat -> inp j 0%nat = true) ->
     inp k 0%nat = false ->
     (forall n, (n < k)%nat -> button (run_ticks inp n power_on) = 0) /\
     (forall n, (k <= n)%nat -> button (run_ticks inp n power_on) = 1)).
Proof.
  assert (Hfirst : forall k, (1 <= k)%nat ->
     (forall j, (1 <= j < k)%nat -> reads_pressed (inp j) = false) ->
     reads_pressed (inp k) = true ->
     (forall n, (n < k)%nat -> button (run_ticks inp n power_on) = 0) /\
     (forall n, (k <= n)%nat -> button (run_ticks inp n power_on) = 1));
    [|split; [|split; [|split; [|split; [exact Hfirst | split]]]]].
  - intros k Hk Hrel Hpress.
    assert (Hbefore : forall n, (n < k)%nat -> run_ticks inp n power_on = power_on).
    { intros n Hn. apply run_ticks_released; [reflexivity|].
      intros j Hj. apply Hrel. lia. }
    split.
    + intros n Hn. rewrite Hbefore by assumption. reflexivity.
    + intros n Hn. apply (run_ticks_armed_later inp k n); [|assumption].
      destruct k as [| k]; [lia|]. cbn [run_ticks].
      rewrite Hbefore by lia. apply step_pressed; [reflexivity | assumption].
  - intros n. apply reachable_button, reachable_run_ticks, reach_power_on.
  - intros n k Hb Hk. apply (run_ticks_armed_later inp n k); assumption.
  - intros p s. apply step_button_armed.
  - intros Hrel n. rewrite run_ticks_released; [reflexivity | reflexivity |].
    intros j Hj. apply Hrel. lia.
  - intros Hst k Hk Hrel Hpress. apply (Hfirst k Hk).
    + intros j Hj. rewrite steady_reads_pressed, Hrel by auto. reflexivity.
    + rewrite steady_reads_pressed, Hpress by auto. reflexivity.
Qed.

Lemma latch_set_once_never_reset_witness :
  (forall n, (n < 51)%nat -> button (run_ticks press_at_51 n power_on) = 0) /\
  (forall n, (51 <= n)%nat -> button (run_ticks press_at_51 n power_on) = 1).
Proof.
  destruct (latch_set_once_never_reset press_at_51) as [_ [_ [_ [H _]]]].
  apply (H 51%nat).
  - lia.
  - intros j Hj. unfold press_at_51.
    destruct (Nat.leb_spec j 50); [reflexivity | lia].
  - reflexivity.
Defined.

(** A stream that agrees with [press_at_51] up to the arming tick and then
    shows the button released for ever. *)
Definition press_only_at_51 : nat -> port :=
  fun k => if (k <=? 50)%nat then high else if (k =? 51)%nat then low else high.

(** C6. Two executions whose pin readings agree on the ticks up to one
    after which the latch is set go through the same states, hence show the
    same output after every tick; from then on no iteration reads the
    pin. *)
Theorem output_ignores_input_after_arming
    (inp1 inp2 : nat -> port) (k : nat) (s : state) :
  button (run_ticks inp1 k s) = 1 ->
  (forall j i, (1 <= j <= k)%nat -> inp1 j i = inp2 j i) ->
  (forall n, run_ticks inp1 n s = run_ticks inp2 n s) /\
  (forall n, LATG11 (run_ticks inp1 n s) = LATG11 (run_ticks inp2 n s)) /\
  (forall n, (k <= n)%nat ->
     samples (inp1 (S n)) (run_ticks inp1 n s) = 0%nat /\
     samples (inp2 (S n)) (run_ticks inp2 n s) = 0%nat).
Proof.
  intros Hb Hagree.
  assert (Hsame : forall n, run_ticks inp1 n s = run_ticks inp2 n s).
  { induction n as [| n IH]; [reflexivity|].
    cbn [run_ticks]. rewrite <- IH.
    destruct (Nat.le_gt_cases (S n) k) as [Hle | Hgt].
    - apply step_ext; apply Hagree; lia.
    - apply step_armed_any_port.
      apply (run_ticks_armed_later inp1 k n); [assumption | lia]. }
  split; [exact Hsame|]. split.
  - intros n. rewrite Hsame. reflexivity.
  - intros n Hn.
    assert (H1 : button (run_ticks inp1 n s) = 1)
      by (apply (run_ticks_armed_later inp1 k n); assumption).
    split; apply samples_armed; [|rewrite <- Hsame]; exact H1.
Qed.

Lemma output_ignores_input_after_arming_witness :
  (forall n, run_ticks press_at_51 n power_on = run_ticks press_only_at_51 n power_on) /\
  (forall n, LATG11 (run_ticks press_at_51 n power_on) =
             LATG11 (run_ticks press_only_at_51 n power_on)) /\
  (forall n, (51 <= n)%nat ->
     samples (press_at_51 (S n)) (run_ticks press_at_51 n power_on) = 0%nat /\
     samples (press_only_at_51 (S n)) (run_ticks press_only_at_51 n power_on) = 0%nat).
Proof.
  apply (output_ignores_input_after_arming press_at_51 press_only_at_51 51 power_on).
  - vm_compute. reflexivity.
  - intros j i Hj. unfold press_at_51, press_only_at_51.
    destruct (Nat.leb_spec j 50); [reflexivity|].
    destruct (Nat.eqb_spec j 51); [reflexivity | lia].
Defined.

(** * The pulse train *)

(** The output after [n >= 1] ticks of a cycle started at [t = 0]. *)
Lemma output_in_cycle (inp : nat -> port) (n : nat) (s : state) :
  step (inp 1%nat) s = armed_at 1 ->
  run_ticks inp (S n) s = armed_at ((1 + Z.of_nat n) mod 3001) /\
  ((S n <= 1000)%nat -> LATG11 (run_ticks inp (S n) s) = true) /\
  ((1001 <= S n <= 3001)%nat -> LATG11 (run_ticks inp (S n) s) = false) /\
  ((S n <= 3000)%nat -> t (run_ticks inp (S n) s) = Z.of_nat (S n)).
Proof.
  intros H1. rewrite (run_after_first inp n s H1).
  split; [reflexivity|]. unfold armed_at. cbn [LATG11 t].
  unfold OutputLine_of. change (1 =? 1) with true. cbv iota.
  repeat split; intros Hn.
  - rewrite Z.mod_small by lia. zcases; simpl; try lia; reflexivity.
  - destruct (Nat.eq_dec (S n) 3001) as [He | Hne].
    + replace (1 + Z.of_nat n) with 3001 by lia. reflexivity.
    + rewrite Z.mod_small by lia. zcases; simpl; try lia; reflexivity.
  - rewrite Z.mod_small by lia. lia.
Qed.

(** The armed state at the start of a cycle, with the output dark. *)
Definition armed_start : state := set_button 1 power_on.

(** C1, as stated, fails: counting ticks from the first armed one, the
    output is still ON after tick 1000 and the counter is 3000, not 0,
    after tick 3000; in the scenario the output is OFF after tick 3051. *)
Lemma pulse_train_one_tick_later :
  button armed_start = 1 /\ t armed_start = 0 /\
  LATG11 (run_ticks (fun _ => high) 1000 armed_start) = true /\
  t (run_ticks (fun _ => high) 3000 armed_start) = 3000 /\
  LATG11 (run_ticks press_at_51 3051 power_on) = false.
Proof. vm_compute. repeat split; reflexivity. Qed.

Lemma press_at_51_released (j : nat) :
  (j <= 50)%nat -> reads_pressed (press_at_51 j) = false.
Proof.
  intros Hj. unfold press_at_51.
  destruct (Nat.leb_spec j 50); [reflexivity | lia].
Qed.

(** C1, amended. From an armed state with [t = 0], counting ticks from 1:
    the output is ON after ticks 1 to 1000 and OFF after ticks 1001 to
    3001; the counter is the tick number up to tick 3000 and is set back to
    0 by tick 3001; the output is ON again after tick 3002.  In the
    scenario (released during ticks 1-50, pressed from tick 51) the output
    keeps its power-on level during ticks 1-50, is ON after ticks 51 to
    1050, OFF after ticks 1051 to 3051 and ON again after tick 3052. *)
Theorem pulse_train_from_start (inp : nat -> port) (s : state) :
  button s = 1 -> t s = 0 ->
  (forall k, (1 <= k <= 1000)%nat -> LATG11 (run_ticks inp k s) = true) /\
  (forall k, (1001 <= k <= 3001)%nat -> LATG11 (run_ticks inp k s) = false) /\
  (forall k, (1 <= k <= 3000)%nat -> t (run_ticks inp k s) = Z.of_nat k) /\
  t (run_ticks inp 3001 s) = 0 /\
  LATG11 (run_ticks inp 3002 s) = true /\
  (forall k, (k <= 50)%nat ->
     LATG11 (run_ticks press_at_51 k power_on) = LATG11 power_on) /\
  (forall k, (51 <= k <= 1050)%nat ->
     LATG11 (run_ticks press_at_51 k power_on) = true) /\
  (forall k, (1051 <= k <= 3051)%nat ->
     LATG11 (run_ticks press_at_51 k power_on) = false) /\
  LATG11 (run_ticks press_at_51 3052 power_on) = true.
Proof.
  intros Hb Ht.
  assert (H1 : step (inp 1%nat) s = armed_at 1)
    by (rewrite step_armed, cycle_start by assumption; reflexivity).
  assert (Hscen : forall j,
            run_ticks press_at_51 (50 + S j) power_on =
            run_ticks (fun i => press_at_51 (50 + i)%nat) (S j) power_on).
  { intros j. rewrite run_ticks_shift.
    rewrite (run_ticks_released press_at_51 50 power_on);
      [reflexivity | reflexivity |].
    intros i Hi. apply press_at_51_released. lia. }
  assert (H51 : step (press_at_51 (50 + 1)%nat) power_on = armed_at 1)
    by reflexivity.
  split; [|split; [|split; [|split; [|split; [|split; [|split; [|split]]]]]]].
  - intros [| n] Hk; [lia|]. apply (output_in_cycle inp n s H1). lia.
  - intros [| n] Hk; [lia|]. apply (output_in_cycle inp n s H1). lia.
  - intros [| n] Hk; [lia|]. apply (output_in_cycle inp n s H1). lia.
  - rewrite (run_after_first inp 3000 s H1). reflexivity.
  - rewrite (run_after_first inp 3001 s H1). reflexivity.
  - intros k Hk. rewrite run_ticks_released; [reflexivity | reflexivity |].
    intros i Hi. apply press_at_51_released. lia.
  - intros k Hk. replace k with (50 + S (k - 51))%nat by lia. rewrite Hscen.
    apply (output_in_cycle _ (k - 51) power_on H51). lia.
  - intros k Hk. replace k with (50 + S (k - 51))%nat by lia. rewrite Hscen.
    apply (output_in_cycle _ (k - 51) power_on H51). lia.
  - vm_compute. reflexivity.
Qed.

Lemma pulse_train_from_start_witness :
  (forall k, (1 <= k <= 1000)%nat ->
     LATG11 (run_ticks (fun _ => high) k armed_start) = true) /\
  (forall k, (1001 <= k <= 3001)%nat ->
     LATG11 (run_ticks (fun _ => high) k armed_start) = false) /\
  (forall k, (1 <= k <= 3000)%nat ->
     t (run_ticks (fun _ => high) k armed_start) = Z.of_nat k) /\
  t (run_ticks (fun _ => high) 3001 armed_start) = 0 /\
  LATG11 (run_ticks (fun _ => high) 3002 armed_start) = true /\
  (forall k, (k <= 50)%nat ->
     LATG11 (run_ticks press_at_51 k power_on) = LATG11 power_on) /\
  (forall k, (51 <= k <= 1050)%nat ->
     LATG11 (run_ticks press_at_51 k power_on) = true) /\
  (forall k, (1051 <= k <= 3051)%nat ->
     LATG11 (run_ticks press_at_51 k power_on) = false) /\
  LATG11 (run_ticks press_at_51 3052 power_on) = true.
Proof.
  apply (pulse_train_from_start (fun _ => high) armed_start); reflexivity.
Defined.

(** * Periodicity *)

Lemma OutputLine_of_armed (x : Z) :
  OutputLine_of 1 x = true <-> 1 <= x <= 1000.
Proof.
  unfold OutputLine_of. change (1 =? 1) with true.
  zcases; simpl; split; intros; try lia; try discriminate; reflexivity.
Qed.

(** Every position of the cycle is reached from every other one. *)
Lemma position_reached (m a : Z) :
  0 <= a <= 3000 -> exists n, (m + Z.of_nat n) mod 3001 = a.
Proof.
  intros Ha. exists (Z.to_nat ((a - m) mod 3001)).
  rewrite Z2Nat.id by apply mod_3001_range.
  rewrite Z.add_mod_idemp_r by lia.
  replace (m + (a - m)) with a by lia.
  apply Z.mod_small. lia.
Qed.

(** C2, as stated, fails: 3000 ticks is not a period.  With the button
    pressed on tick 1 the output is ON after tick 1 and OFF after tick
    1 + 3000; it is ON again after tick 1 + 3001. *)
Lemma period_is_not_3000 :
  button (run_ticks (fun _ => low) 1 power_on) = 1 /\
  LATG11 (run_ticks (fun _ => low) 1 power_on) = true /\
  LATG11 (run_ticks (fun _ => low) (1 + 3000) power_on) = false /\
  LATG11 (run_ticks (fun _ => low) (1 + 3001) power_on) = true.
Proof. vm_compute. repeat split; reflexivity. Qed.

(** C2, amended. After arming the cycle period is exactly 3001 ticks: 3001
    ticks bring the state back to itself, so that every later cycle
    repeats the first one tick by tick whatever the pin does; the output
    is ON exactly at the positions 1..1000 of the cycle (one tick that
    lights it, 999 that hold it) and OFF at the other 2001 (2000 that clear
    it and the reset tick); and no shorter shift is a period of the
    output. *)
Theorem cycle_period_3001 (inp inp' : nat -> port) (s : state) :
  reachable s -> button s = 1 ->
  run_ticks inp 3001 s = s /\
  (forall N n, run_ticks inp (n + 3001 * N) s = run_ticks inp' n s) /\
  (forall n, LATG11 (run_ticks inp n s) =
             OutputLine_of 1 ((t s + Z.of_nat n) mod 3001)) /\
  (forall d, (0 < d < 3001)%nat ->
     exists n, LATG11 (run_ticks inp (n + d) s) <> LATG11 (run_ticks inp n s)).
Proof.
  intros Hr Hb.
  pose proof (reachable_inv s Hr) as Hinv.
  assert (Hm : 0 <= t s <= 3000) by (destruct Hinv as [[? _] | [_ [? _]]]; lia).
  pose proof (armed_canonical s Hinv Hb) as Hs.
  set (m := t s) in *.
  assert (Hrun : forall i n, run_ticks i n s = armed_at ((m + Z.of_nat n) mod 3001)).
  { intros i n. rewrite Hs at 1. apply run_armed_at, Hm. }
  split; [|split; [|split]].
  - rewrite Hrun, Hs. f_equal.
    replace (m + Z.of_nat 3001) with (m + 1 * 3001) by lia.
    rewrite Z.mod_add by lia. apply Z.mod_small. lia.
  - intros N n. rewrite !Hrun. f_equal.
    replace (m + Z.of_nat (n + 3001 * N))
      with (m + Z.of_nat n + Z.of_nat N * 3001) by lia.
    apply Z.mod_add. lia.
  - intros n. rewrite Hrun. reflexivity.
  - intros d Hd.
    assert (Hpick : exists a, 1 <= a <= 1000 /\
                      ~ (1 <= (a + Z.of_nat d) mod 3001 <= 1000)).
    { destruct (Z_lt_le_dec (Z.of_nat d) 1000) as [Hsmall | Hbig].
      - exists (1001 - Z.of_nat d). split; [lia|].
        replace (1001 - Z.of_nat d + Z.of_nat d) with 1001 by lia.
        rewrite Z.mod_small; lia.
      - exists 1. split; [lia|].
        destruct (Z.eq_dec (Z.of_nat d) 3000) as [He | Hne].
        + rewrite He. change ((1 + 3000) mod 3001) with 0. lia.
        + rewrite Z.mod_small; lia. }
    destruct Hpick as [a [Ha Hoff]].
    destruct (position_reached m a) as [n Hn]; [lia|].
    exists n. rewrite !Hrun. unfold armed_at. cbn [LATG11].
    replace (m + Z.of_nat (n + d)) with (m + Z.of_nat n + Z.of_nat d) by lia.
    rewrite <- Z.add_mod_idemp_l by lia. rewrite Hn.
    rewrite <- OutputLine_of_armed in Ha, Hoff. rewrite Ha.
    destruct (OutputLine_of 1 ((a + Z.of_nat d) mod 3001));
      [exfalso; apply Hoff; reflexivity | discriminate].
Qed.

Lemma cycle_period_3001_witness :
  run_ticks (fun _ => high) 3001 (armed_at 1) = armed_at 1 /\
  (forall N n, run_ticks (fun _ => high) (n + 3001 * N) (armed_at 1) =
               run_ticks (fun _ => low) n (armed_at 1)) /\
  (forall n, LATG11 (run_ticks (fun _ => high) n (armed_at 1)) =
             OutputLine_of 1 ((t (armed_at 1) + Z.of_nat n) mod 3001)) /\
  (forall d, (0 < d < 3001)%nat ->
     exists n, LATG11 (run_ticks (fun _ => high) (n + d) (armed_at 1)) <>
               LATG11 (run_ticks (fun _ => high) n (armed_at 1))).
Proof.
  apply (cycle_period_3001 (fun _ => high) (fun _ => low) (armed_at 1)).
  - change (armed_at 1) with (step low power_on).
    apply reach_step, reach_power_on.
  - reflexivity.
Defined.


(** * The armed block on arbitrary states

    The guards of lines 135-145 are total on [int]: whatever [t] and the
    output latch hold, the block brings them back to the cycle. *)

(** Counting the ticks of an execution: [count_before obs inp n s] is the
    number of ticks among the first [n] that are evaluated in a state
    satisfying [obs]; [count_after obs inp n s] the number of those that
    leave such a state at the idle wait. *)
Fixpoint count_before (obs : state -> bool) (inp : nat -> port) (n : nat)
    (s : state) : nat :=
  match n with
  | O => O
  | S m => (count_before obs inp m s + Nat.b2n (obs (run_ticks inp m s)))%nat
  end.

Fixpoint count_after (obs : state -> bool) (inp : nat -> port) (n : nat)
    (s : state) : nat :=
  match n with
  | O => O
  | S m => (count_after obs inp m s + Nat.b2n (obs (run_ticks inp n s)))%nat
  end.

(** The number of reads of [PORTDbits.RD6] made by the first [n] ticks. *)
Fixpoint total_samples (inp : nat -> port) (n : nat) (s : state) : nat :=
  match n with
  | O => O
  | S m => (total_samples inp m s + samples (inp n) (run_ticks inp m s))%nat
  end.

(** The sum of [f] over [n] consecutive positions of the cycle, from [m]. *)
Fixpoint cycle_sum (f : Z -> nat) (m : Z) (n : nat) : nat :=
  match n with
  | O => O
  | S j => (cycle_sum f m j + f ((m + Z.of_nat j) mod 3001)%Z)%nat
  end.

(** A state with the latch set, a counter in the on-hold range and the
    output dark: not reachable from power-on. *)
Definition dark_hold : state := {| button := 1; t := 1; LATG11 := false |}.

Lemma run_ticks_inv (inp : nat -> port) (n : nat) (s : state) :
  loop_inv s -> loop_inv (run_ticks inp n s).
Proof.
  intros H. induction n as [| n IH]; simpl; [exact H | apply step_inv, IH].
Qed.

Lemma run_ticks_first (inp : nat -> port) (n : nat) (s : state) :
  run_ticks inp (S n) s = run_ticks (fun j => inp (S j)) n (step (inp 1%nat) s).
Proof. exact (run_ticks_shift inp 1 n s). Qed.

Lemma run_ticks_armed_any_port (inp inp' : nat -> port) (n : nat) (s : state) :
  button s = 1 -> run_ticks inp n s = run_ticks inp' n s.
Proof.
  intros Hb. induction n as [| n IH]; [reflexivity|].
  cbn [run_ticks]. rewrite <- IH. apply step_armed_any_port.
  apply run_ticks_button_armed, Hb.
Qed.

Lemma cycle_counter (s : state) :
  0 <= t (cycle s) <= 3000 /\
  (0 <= t s < 3000 -> t (cycle s) = t s + 1) /\
  (t s < 0 \/ 3000 <= t s -> t (cycle s) = 0).
Proof.
  unfold cycle, at_start, in_on_hold, in_off_hold, incr_t, set_t, set_LATG11.
  zcases; simpl;
    rewrite ?wrap_int_small by (unfold INT_MIN, INT_MAX; lia); lia.
Qed.

Lemma cycle_off (s : state) :
  button s = 1 -> 1000 <= t s < 3000 -> cycle s = armed_at (t s + 1).
Proof.
  intros Hb Ht. destruct s as [b m l]; simpl in *; subst b.
  unfold cycle, at_start, in_on_hold, in_off_hold, incr_t, set_t, set_LATG11,
    armed_at, OutputLine_of; simpl.
  rewrite wrap_int_small by (unfold INT_MIN, INT_MAX; lia).
  zcases; simpl; try lia; reflexivity.
Qed.

Lemma cycle_reset (s : state) :
  button s = 1 -> t s < 0 \/ 3000 <= t s -> cycle s = armed_at 0.
Proof.
  intros Hb Ht. destruct s as [b m l]; simpl in *; subst b.
  unfold cycle, at_start, in_on_hold, in_off_hold, set_t, set_LATG11,
    armed_at; simpl.
  zcases; simpl; try lia; reflexivity.
Qed.

Lemma cycle_canonical (s : state) :
  button s = 1 -> t s <= 0 \/ 1000 <= t s -> loop_inv (cycle s).
Proof.
  intros Hb Ht.
  destruct (Z.eq_dec (t s) 0) as [H0 | H0].
  - rewrite cycle_start by assumption. apply loop_inv_armed_at. lia.
  - destruct (Z_lt_le_dec (t s) 0) as [Hneg | Hpos].
    + rewrite cycle_reset by auto. apply loop_inv_armed_at. lia.
    + destruct (Z_lt_le_dec (t s) 3000) as [Hlt | Hge].
      * rewrite cycle_off by (auto; lia). apply loop_inv_armed_at. lia.
      * rewrite cycle_reset by auto. apply loop_inv_armed_at. lia.
Qed.

Lemma cycle_hold (s : state) :
  0 < t s < 1000 -> cycle s = set_t (t s + 1) s.
Proof.
  intros Ht. destruct s as [b m l]; simpl in *.
  unfold cycle, at_start, in_on_hold, incr_t, set_t; simpl.
  rewrite wrap_int_small by (unfold INT_MIN, INT_MAX; lia).
  zcases; simpl; try lia; reflexivity.
Qed.

Lemma stabilise_aux (n : nat) :
  forall (inp : nat -> port) (s : state),
    button s = 1 ->
    t s <= 0 \/ 1000 <= t s \/ 1001 - t s <= Z.of_nat n ->
    (1 <= n)%nat ->
    loop_inv (run_ticks inp n s).
Proof.
  induction n as [| n IH]; intros inp s Hb Ht Hn; [lia|].
  rewrite run_ticks_first, step_armed by assumption.
  destruct (Z_lt_le_dec 0 (t s)) as [Hpos | Hneg].
  - destruct (Z_lt_le_dec (t s) 1000) as [Hlt | Hge].
    + rewrite cycle_hold by lia. apply IH.
      * exact Hb.
      * cbn [t set_t]. lia.
      * lia.
    + apply run_ticks_inv, cycle_canonical; [assumption | lia].
  - apply run_ticks_inv, cycle_canonical; [assumption | lia].
Qed.

(** X1. On a tick evaluated with the latch set the counter is brought into
    0..3000 whatever value it had: it is incremented, without wrapping,
    exactly when it is in 0..2999, and set to 0 from every other value,
    negative ones included. *)
Theorem armed_tick_bounds_counter (p : port) (s : state) :
  button (latched p s) = 1 ->
  0 <= t (step p s) <= 3000 /\
  (0 <= t s < 3000 -> t (step p s) = t s + 1) /\
  (t s < 0 \/ 3000 <= t s -> t (step p s) = 0).
Proof.
  intros Hb. rewrite step_latched. unfold blink. rewrite Hb.
  change (1 =? 1) with true. cbv iota.
  rewrite <- (latched_t p s). apply cycle_counter.
Qed.

Lemma armed_tick_bounds_counter_witness :
  0 <= t (step low (mkState 0 (-7) true)) <= 3000 /\
  (0 <= -7 < 3000 -> t (step low (mkState 0 (-7) true)) = -7 + 1) /\
  (-7 < 0 \/ 3000 <= -7 -> t (step low (mkState 0 (-7) true)) = 0).
Proof.
  apply (armed_tick_bounds_counter low (mkState 0 (-7) true)). reflexivity.
Defined.

(** X2. From any state with the latch set, whatever the counter and the
    output latch hold, the loop invariant is restored: after one tick when
    the counter is outside 1..999, and after 1000 ticks at the latest in
    every case; from then on the output is again the function of the
    counter.  1000 cannot be lowered: from [dark_hold] the output still
    differs from it after 999 ticks. *)
Theorem armed_block_self_stabilises (inp : nat -> port) (n : nat) (s : state) :
  button s = 1 ->
  ((1000 <= n)%nat \/ ((1 <= n)%nat /\ (t s <= 0 \/ 1000 <= t s))) ->
  (button (run_ticks inp n s) = 1 /\
   0 <= t (run_ticks inp n s) <= 3000 /\
   LATG11 (run_ticks inp n s) = OutputLine_of 1 (t (run_ticks inp n s))) /\
  LATG11 (run_ticks inp 999 dark_hold) <>
    OutputLine_of 1 (t (run_ticks inp 999 dark_hold)).
Proof.
  intros Hb Hn. split.
  - assert (Hinv : loop_inv (run_ticks inp n s)).
    { destruct (Z_lt_le_dec 0 (t s)) as [Hpos | Hneg];
        [destruct (Z_lt_le_dec (t s) 1000) as [Hlt | Hge]|];
        apply stabilise_aux; try assumption; lia. }
    pose proof (run_ticks_button_armed inp n s Hb) as Hb'.
    destruct Hinv as [[H0 _] | [_ [Hr Hl]]]; [lia | auto].
  - rewrite (run_ticks_armed_any_port inp (fun _ => high) 999 dark_hold)
      by reflexivity.
    vm_compute. discriminate.
Qed.

Lemma armed_block_self_stabilises_witness :
  (button (run_ticks (fun _ => high) 1000 dark_hold) = 1 /\
   0 <= t (run_ticks (fun _ => high) 1000 dark_hold) <= 3000 /\
   LATG11 (run_ticks (fun _ => high) 1000 dark_hold) =
     OutputLine_of 1 (t (run_ticks (fun _ => high) 1000 dark_hold))) /\
  LATG11 (run_ticks (fun _ => high) 999 dark_hold) <>
    OutputLine_of 1 (t (run_ticks (fun _ => high) 999 dark_hold)).
Proof.
  apply (armed_block_self_stabilises (fun _ => high) 1000 dark_hold).
  - reflexivity.
  - left. apply Nat.le_refl.
Defined.

Lemma blink_edges (x : state) :
  (LATG11 (blink x) = true -> LATG11 x = true \/ (button x = 1 /\ t x = 0)) /\
  (LATG11 (blink x) = false ->
     LATG11 x = false \/ (button x = 1 /\ (t x < 0 \/ 1000 <= t x))) /\
  (button x = 1 -> t x = 0 -> LATG11 (blink x) = true) /\
  (button x = 1 -> t x < 0 \/ 1000 <= t x -> LATG11 (blink x) = false) /\
  (0 < t x < 1000 -> LATG11 (blink x) = LATG11 x).
Proof.
  destruct x as [b m l].
  unfold blink, cycle, at_start, in_on_hold, in_off_hold, incr_t, set_t,
    set_LATG11; simpl.
  repeat split; intros; zcases; simpl in *; auto; try lia; try discriminate.
Qed.

(** X3. In any state the output is switched ON only by a tick evaluated
    with the latch set and [t = 0], and switched OFF only by one evaluated
    with the latch set and [t] outside 0..999; such ticks always write
    these levels, and a tick evaluated with [0 < t < 1000] never changes
    the output. *)
Theorem output_written_only_at_cycle_edges (p : port) (s : state) :
  (LATG11 (step p s) = true ->
     LATG11 s = true \/ (button (latched p s) = 1 /\ t s = 0)) /\
  (LATG11 (step p s) = false ->
     LATG11 s = false \/
     (button (latched p s) = 1 /\ (t s < 0 \/ 1000 <= t s))) /\
  (button (latched p s) = 1 -> t s = 0 -> LATG11 (step p s) = true) /\
  (button (latched p s) = 1 -> t s < 0 \/ 1000 <= t s ->
     LATG11 (step p s) = false) /\
  (0 < t s < 1000 -> LATG11 (step p s) = LATG11 s).
Proof.
  rewrite step_latched, <- (latched_t p s), <- (latched_LATG11 p s).
  apply blink_edges.
Qed.

Lemma output_written_only_at_cycle_edges_witness :
  LATG11 (step high (armed_at 1000)) = false /\
  LATG11 (step low power_on) = true /\
  LATG11 (step high dark_hold) = LATG11 dark_hold.
Proof.
  destruct (output_written_only_at_cycle_edges high (armed_at 1000))
    as [_ [_ [_ [Hoff _]]]].
  destruct (output_written_only_at_cycle_edges low power_on)
    as [_ [_ [Hon _]]].
  destruct (output_written_only_at_cycle_edges high dark_hold)
    as [_ [_ [_ [_ Hhold]]]].
  split; [|split].
  - apply Hoff; [reflexivity | right; simpl; lia].
  - apply Hon; reflexivity.
  - apply Hhold. simpl. lia.
Defined.

(** * Whole executions from power-on *)

Lemma step_pressed_power_on (p : port) :
  reads_pressed p = true -> step p power_on = armed_at 1.
Proof.
  unfold reads_pressed. intros Hp.
  destruct (p 0%nat) eqn:H0; [discriminate|].
  destruct (p 1%nat) eqn:H1; [discriminate|].
  rewrite step_low by auto. apply cycle_start; reflexivity.
Qed.

(** X4. An execution from power-on is determined by the number [k] of the
    first tick on which the pin reads pressed: the state is the power-on
    state after every earlier tick and, after tick [n >= k], the armed
    state at position [(n - k + 1) mod 3001] of the cycle, whatever the pin
    does later.  So the output is ON after tick [n] exactly when [n >= k]
    and that position is in 1..1000. *)
Theorem execution_closed_form (inp : nat -> port) (k : nat) :
  (1 <= k)%nat ->
  (forall j, (1 <= j < k)%nat -> reads_pressed (inp j) = false) ->
  reads_pressed (inp k) = true ->
  forall n,
    run_ticks inp n power_on =
      (if (n <? k)%nat then power_on
       else armed_at ((Z.of_nat (n - k) + 1) mod 3001)) /\
    (LATG11 (run_ticks inp n power_on) = true <->
     (k <= n)%nat /\ 1 <= (Z.of_nat (n - k) + 1) mod 3001 <= 1000).
Proof.
  intros Hk Hrel Hpress n.
  assert (Hrun : run_ticks inp n power_on =
            if (n <? k)%nat then power_on
            else armed_at ((Z.of_nat (n - k) + 1) mod 3001)).
  { destruct (Nat.ltb_spec n k) as [Hlt | Hge].
    - apply run_ticks_released; [reflexivity|].
      intros j Hj. apply Hrel. lia.
    - replace n with ((k - 1) + S (n - k))%nat at 1 by lia.
      rewrite run_ticks_shift.
      rewrite (run_ticks_released inp (k - 1) power_on);
        [| reflexivity | intros j Hj; apply Hrel; lia].
      rewrite run_after_first.
      + f_equal. f_equal. lia.
      + replace (k - 1 + 1)%nat with k by lia.
        apply step_pressed_power_on, Hpress. }
  split; [exact Hrun|]. rewrite Hrun.
  destruct (Nat.ltb_spec n k) as [Hlt | Hge].
  - simpl. split; [discriminate | lia].
  - unfold armed_at. cbn [LATG11]. rewrite OutputLine_of_armed.
    split; [auto | tauto].
Qed.

Lemma execution_closed_form_witness :
  run_ticks press_at_51 3052 power_on =
    (if (3052 <? 51)%nat then power_on
     else armed_at ((Z.of_nat (3052 - 51) + 1) mod 3001)) /\
  (LATG11 (run_ticks press_at_51 3052 power_on) = true <->
   (51 <= 3052)%nat /\ 1 <= (Z.of_nat (3052 - 51) + 1) mod 3001 <= 1000).
Proof.
  apply (execution_closed_form press_at_51 51).
  - lia.
  - intros j Hj. apply press_at_51_released. lia.
  - reflexivity.
Defined.

Lemma samples_high (p : port) (s : state) :
  button s = 0 -> p 0%nat = true -> samples p s = 1%nat.
Proof.
  intros Hb Hp. unfold samples, loop_body.
  rewrite sample_high by assumption. reflexivity.
Qed.

Lemma samples_low (p : port) (s : state) :
  button s = 0 -> p 0%nat = false -> p 1%nat = false -> samples p s = 2%nat.
Proof.
  intros Hb Hp Hq. unfold samples, loop_body.
  rewrite sample_low by assumption. reflexivity.
Qed.

(** X5. In an execution from power-on in which the pin first reads low on
    tick [k] (high at the read of every earlier tick, low at both reads of
    tick [k]), the pin is read [n] times during the first [n < k] ticks
    and [k + 1] times in all: once per waiting tick, twice on the arming
    tick and never again. *)
Theorem pin_read_k_plus_1_times (inp : nat -> port) (k : nat) :
  (1 <= k)%nat ->
  (forall j, (1 <= j < k)%nat -> inp j 0%nat = true) ->
  inp k 0%nat = false -> inp k 1%nat = false ->
  forall n,
    total_samples inp n power_on = if (n <? k)%nat then n else (k + 1)%nat.
Proof.
  intros Hk Hrel Hp0 Hp1.
  assert (Hnp : forall j, (1 <= j < k)%nat -> reads_pressed (inp j) = false).
  { intros j Hj. unfold reads_pressed. rewrite (Hrel j Hj). reflexivity. }
  assert (Hwait : forall n, (n < k)%nat -> run_ticks inp n power_on = power_on).
  { intros n Hn. apply run_ticks_released; [reflexivity|].
    intros j Hj. apply Hnp. lia. }
  assert (Harmed : forall n, (k <= n)%nat -> button (run_ticks inp n power_on) = 1).
  { intros n Hn. apply (run_ticks_armed_later inp k n); [|assumption].
    destruct k as [| k']; [lia|]. cbn [run_ticks].
    rewrite Hwait by lia. rewrite step_low by auto. apply cycle_button. }
  induction n as [| n IH].
  - destruct (Nat.ltb_spec 0 k); [reflexivity | lia].
  - cbn [total_samples]. rewrite IH.
    destruct (Nat.ltb_spec n k) as [Hlt | Hge].
    + rewrite Hwait by assumption.
      destruct (Nat.ltb_spec (S n) k) as [Hlt' | Hge'].
      * rewrite samples_high by (auto; apply Hrel; lia). lia.
      * replace (S n) with k by lia.
        rewrite samples_low by auto. lia.
    + rewrite samples_armed by (apply Harmed; assumption).
      destruct (Nat.ltb_spec (S n) k); lia.
Qed.

Lemma pin_read_k_plus_1_times_witness :
  total_samples press_at_51 60 power_on =
    (if (60 <? 51)%nat then 60%nat else (51 + 1)%nat).
Proof.
  apply (pin_read_k_plus_1_times press_at_51 51).
  - lia.
  - intros j Hj. unfold press_at_51.
    destruct (Nat.leb_spec j 50); [reflexivity | lia].
  - reflexivity.
  - reflexivity.
Defined.

(** * Counting over one cycle *)

Lemma cycle_sum_shift (f : Z -> nat) (m : Z) (n : nat) :
  (cycle_sum f (m + 1)%Z n + f (m mod 3001)%Z =
   f ((m + Z.of_nat n) mod 3001)%Z + cycle_sum f m n)%nat.
Proof.
  induction n as [| n IH].
  - cbn [cycle_sum]. rewrite Z.add_0_r. lia.
  - cbn [cycle_sum].
    replace (m + 1 + Z.of_nat n) with (m + Z.of_nat (S n)) by lia.
    lia.
Qed.

(** Over a whole cycle the sum does not depend on where it starts. *)
Lemma cycle_sum_full (f : Z -> nat) (n : nat) (m : Z) :
  Z.of_nat n = 3001 -> 0 <= m -> cycle_sum f m n = cycle_sum f 0 n.
Proof.
  intros Hn Hm. rewrite <- (Z2Nat.id m Hm).
  induction (Z.to_nat m) as [| j IH]; [reflexivity|].
  rewrite Nat2Z.inj_succ. unfold Z.succ.
  pose proof (cycle_sum_shift f (Z.of_nat j) n) as Hs.
  rewrite Hn in Hs.
  replace (Z.of_nat j + 3001) with (Z.of_nat j + 1 * 3001) in Hs by lia.
  rewrite Z.mod_add in Hs by lia. lia.
Qed.

Lemma count_before_armed_at (obs : state -> bool) (inp : nat -> port)
    (n : nat) (m : Z) :
  0 <= m <= 3000 ->
  count_before obs inp n (armed_at m) =
  cycle_sum (fun z => Nat.b2n (obs (armed_at z))) m n.
Proof.
  intros Hm. induction n as [| n IH]; [reflexivity|].
  cbn [count_before cycle_sum]. rewrite IH, run_armed_at by assumption.
  reflexivity.
Qed.

Lemma count_after_armed_at (obs : state -> bool) (inp : nat -> port)
    (n : nat) (m : Z) :
  0 <= m <= 3000 ->
  count_after obs inp n (armed_at m) =
  cycle_sum (fun z => Nat.b2n (obs (armed_at z))) (m + 1) n.
Proof.
  intros Hm. induction n as [| n IH]; [reflexivity|].
  cbn [count_after cycle_sum]. rewrite IH, run_armed_at by assumption.
  replace (m + Z.of_nat (S n)) with (m + 1 + Z.of_nat n) by lia.
  reflexivity.
Qed.

Lemma count_after_whole_cycle (obs : state -> bool) (inp : nat -> port) (m : Z) :
  0 <= m <= 3000 ->
  count_after obs inp 3001 (armed_at m) =
  cycle_sum (fun z => Nat.b2n (obs (armed_at z))) 0 3001.
Proof.
  intros Hm. rewrite (count_after_armed_at obs inp 3001 m Hm).
  apply cycle_sum_full; [reflexivity | lia].
Qed.

Lemma count_before_whole_cycle (obs : state -> bool) (inp : nat -> port) (m : Z) :
  0 <= m <= 3000 ->
  count_before obs inp 3001 (armed_at m) =
  cycle_sum (fun z => Nat.b2n (obs (armed_at z))) 0 3001.
Proof.
  intros Hm. rewrite (count_before_armed_at obs inp 3001 m Hm).
  apply cycle_sum_full; [reflexivity | lia].
Qed.

(** X6. In every window of 3001 consecutive ticks of an armed execution,
    wherever in the cycle it starts, the output is ON after exactly 1000
    ticks and OFF after the other 2001. *)
Theorem on_for_1000_ticks_of_3001 (inp : nat -> port) (s : state) :
  reachable s -> button s = 1 ->
  count_after LATG11 inp 3001 s = 1000%nat /\
  count_after (fun x => negb (LATG11 x)) inp 3001 s = 2001%nat.
Proof.
  intros Hr Hb. pose proof (reachable_inv s Hr) as Hinv.
  assert (Hm : 0 <= t s <= 3000) by (destruct Hinv as [[? _] | [_ [? _]]]; lia).
  rewrite (armed_canonical s Hinv Hb).
  split.
  - rewrite (count_after_whole_cycle LATG11 inp (t s) Hm).
    vm_compute. reflexivity.
  - rewrite (count_after_whole_cycle (fun x => negb (LATG11 x)) inp (t s) Hm).
    vm_compute. reflexivity.
Qed.

Lemma on_for_1000_ticks_of_3001_witness :
  count_after LATG11 (fun _ => high) 3001 (armed_at 1234) = 1000%nat /\
  count_after (fun x => negb (LATG11 x)) (fun _ => high) 3001 (armed_at 1234) =
    2001%nat.
Proof.
  apply (on_for_1000_ticks_of_3001 (fun _ => high) (armed_at 1234)).
  - change (armed_at 1234) with (run_ticks (fun _ => low) 1234 power_on).
    apply reachable_run_ticks, reach_power_on.
  - reflexivity.
Defined.

(** X7. In every window of 3001 consecutive ticks of an armed execution
    the branch that lights the output ([t == 0]) is taken by exactly one
    tick, the on-hold branch by 999, the branch that clears the output by
    2000 and the final [else], which resets the counter, by one. *)
Theorem branch_profile_of_a_cycle (inp : nat -> port) (s : state) :
  reachable s -> button s = 1 ->
  count_before at_start inp 3001 s = 1%nat /\
  count_before in_on_hold inp 3001 s = 999%nat /\
  count_before in_off_hold inp 3001 s = 2000%nat /\
  count_before enters_reset inp 3001 s = 1%nat.
Proof.
  intros Hr Hb. pose proof (reachable_inv s Hr) as Hinv.
  assert (Hm : 0 <= t s <= 3000) by (destruct Hinv as [[? _] | [_ [? _]]]; lia).
  rewrite (armed_canonical s Hinv Hb).
  split; [|split; [|split]].
  - rewrite (count_before_whole_cycle at_start inp (t s) Hm).
    vm_compute. reflexivity.
  - rewrite (count_before_whole_cycle in_on_hold inp (t s) Hm).
    vm_compute. reflexivity.
  - rewrite (count_before_whole_cycle in_off_hold inp (t s) Hm).
    vm_compute. reflexivity.
  - rewrite (count_before_whole_cycle enters_reset inp (t s) Hm).
    vm_compute. reflexivity.
Qed.

Lemma branch_profile_of_a_cycle_witness :
  count_before at_start (fun _ => high) 3001 (armed_at 1234) = 1%nat /\
  count_before in_on_hold (fun _ => high) 3001 (armed_at 1234) = 999%nat /\
  count_before in_off_hold (fun _ => high) 3001 (armed_at 1234) = 2000%nat /\
  count_before enters_reset (fun _ => high) 3001 (armed_at 1234) = 1%nat.
Proof.
  apply (branch_profile_of_a_cycle (fun _ => high) (armed_at 1234)).
  - change (armed_at 1234) with (run_ticks (fun _ => low) 1234 power_on).
    apply reachable_run_ticks, reach_power_on.
  - reflexivity.
Defined.
